(** * Crystal Companions Backend: the chat-completions proxy of [server.js]

    A shallow embedding of the Express application of [src/server.js]:
    the JSON values the handlers inspect, the handler of
    [POST /api/chat/completions] with its validation, the construction of
    the upstream request and the translation of upstream failures, the
    health route, the 404 handler and the order of the middleware.    *)

From stdpp Require Import gmap strings list fin_maps pretty.
From Stdlib Require Import ZArith.
From Stdlib Require Import Floats.PrimFloat.

Open Scope Z_scope.
Open Scope string_scope.
Open Scope list_scope.

(** ** JavaScript values

    The values [express.json()] hands to a handler, plus [undefined], which
    is what reading a missing property gives. An object is a finite map from
    property names to values: [JSON.parse] keeps the last of two equal keys,
    and the handlers never depend on the order of the keys. Numbers are
    IEEE 754 doubles, as in JavaScript. *)

Set Warnings "-register-all".
Inductive value : Type :=
  | VUndefined
  | VNull
  | VBool (b : bool)
  | VNum (n : float)
  | VStr (s : string)
  | VArr (elems : list value)
  | VObj (props : gmap string value).

(** A number is falsy when it is [0], [-0] or [NaN]. *)
Definition number_truthy (n : float) : bool :=
  negb (PrimFloat.eqb n 0%float) && PrimFloat.eqb n n.

(** [!!v]: the values JavaScript takes for false are [undefined], [null],
    [false], the falsy numbers and the empty string; arrays and objects
    never are. *)
Definition truthy (v : value) : bool :=
  match v with
  | VUndefined | VNull => false
  | VBool b => b
  | VNum n => number_truthy n
  | VStr s => negb (String.eqb s "")
  | VArr _ | VObj _ => true
  end.

(** [a || b] *)
Definition js_or (a b : value) : value := if truthy a then a else b.

(** [Array.isArray(v)] *)
Definition isArray (v : value) : bool :=
  match v with VArr _ => true | _ => false end.

(** [v === 'lit'] for a string literal: strict equality never converts. *)
Definition strict_eq_str (v : value) (lit : string) : bool :=
  match v with VStr s => String.eqb s lit | _ => false end.

(** The elements a [for ... of] loop visits. *)
Definition elements (v : value) : list value :=
  match v with VArr l => l | _ => [] end.

(** ** Property access

    The handler reads five property names and no other. None of them is an
    index, [length] or a member of [Object.prototype], [Array.prototype] or
    [String.prototype], so reading one from an array, a string, a number or
    a boolean gives [undefined], and from an object gives the own property. *)

Inductive field : Type :=
  | f_model
  | f_messages
  | f_max_completion_tokens
  | f_role
  | f_content.

Definition field_name (f : field) : string :=
  match f with
  | f_model => "model"
  | f_messages => "messages"
  | f_max_completion_tokens => "max_completion_tokens"
  | f_role => "role"
  | f_content => "content"
  end.

(** What the handler's [catch] reads of a thrown error: [error.code],
    [error.status], [error.message] and [error.type]. A field the error
    does not have reads as [undefined]; [status] is a number or is absent. *)
Record js_error : Type := mk_error {
  err_code : value;
  err_status : option Z;
  err_message : value;
  err_type : value
}.

(** The [TypeError] of reading a property of [null] or [undefined]. *)
Definition TypeError (msg : string) : js_error :=
  {| err_code := VUndefined; err_status := None;
     err_message := VStr msg; err_type := VUndefined |}.

(** [v.f] *)
Definition get (v : value) (f : field) : value + js_error :=
  match v with
  | VUndefined =>
      inr (TypeError ("Cannot read properties of undefined (reading '"
                        +:+ field_name f +:+ "')"))
  | VNull =>
      inr (TypeError ("Cannot read properties of null (reading '"
                        +:+ field_name f +:+ "')"))
  | VObj props => inl (default VUndefined (props !! field_name f))
  | VBool _ | VNum _ | VStr _ | VArr _ => inl VUndefined
  end.

(** The own enumerable properties an object rest pattern copies: those of
    an object, the indexed elements of an array, the indexed characters of
    a string, none for a number or a boolean. *)
Definition indexed {A} (f : A → value) (l : list A) : gmap string value :=
  list_to_map (imap (λ i x, (pretty i, f x)) l).

Definition own_enumerable (v : value) : gmap string value :=
  match v with
  | VObj props => props
  | VArr l => indexed id l
  | VStr s => indexed (λ c, VStr (String c EmptyString)) (String.list_ascii_of_string s)
  | _ => ∅
  end.

(** An object literal [{k1: v1, k2: v2}] with distinct keys. *)
Definition obj (l : list (string * value)) : value := VObj (list_to_map l).

(** ** Responses, events and the handler monad *)

(** What [res.status(c).json(b)] sends; [res.json(b)] alone sends 200. *)
Record response : Type := json { status : Z; body : value }.

(** What a handler does besides answering: the console lines and the calls
    to [openai.chat.completions.create]. *)
Inductive event : Type :=
  | ConsoleLog (line : string)
  | ConsoleError (label : string) (e : js_error)
  | UpstreamCreate (request : gmap string value).

(** A statement of the [try] block goes on with a value, ends the handler
    with [return res...json(...)], or throws. *)
Inductive outcome (A : Type) : Type :=
  | Next (a : A)
  | Responded (r : response)
  | Thrown (e : js_error).
Arguments Next {A} a.
Arguments Responded {A} r.
Arguments Thrown {A} e.

Definition M (A : Type) : Type := list event * outcome A.

Definition M_bind {A B} (k : A → M B) (m : M A) : M B :=
  match m with
  | (t, Next a) => let '(t', o) := k a in (t ++ t', o)
  | (t, Responded r) => (t, Responded r)
  | (t, Thrown e) => (t, Thrown e)
  end.

#[export] Instance M_ret : MRet M := λ A a, ([], Next a).
#[export] Instance M_mbind : MBind M := λ A B k m, M_bind k m.

Definition log (line : string) : M unit := ([ConsoleLog line], Next tt).
Definition respond {A} (r : response) : M A := ([], Responded r).
Definition throw {A} (e : js_error) : M A := ([], Thrown e).
Definition lift {A} (x : A + js_error) : M A :=
  match x with inl a => mret a | inr e => throw e end.

(** The upstream provider, as the handler sees it: [create] resolves to a
    completion object or rejects with an error. *)
Definition upstream : Type := gmap string value → value + js_error.

(** [await openai.chat.completions.create(request)] *)
Definition await_create (create : upstream) (request : gmap string value)
  : M value :=
  ([UpstreamCreate request],
   match create request with inl c => Next c | inr e => Thrown e end).

Definition upstream_calls (t : list event) : list (gmap string value) :=
  omap (λ ev, match ev with UpstreamCreate r => Some r | _ => None end) t.

(** ** [POST /api/chat/completions] *)

(** [{ error: { message, type } }] *)
Definition error_envelope (message type : string) : value :=
  obj [("error", obj [("message", VStr message); ("type", VStr type)])].

(** [{ error: { message, type, code } }] *)
Definition error_envelope_code (message type code : value) : value :=
  obj [("error", obj [("message", message); ("type", type); ("code", code)])].

Definition messages_required : response :=
  json 400 (error_envelope "Messages array is required" "invalid_request_error").

Definition role_content_required : response :=
  json 400 (error_envelope "Each message must have role and content"
                           "invalid_request_error").

(** [const { model, messages, max_completion_tokens, ...otherParams } =
    req.body;] Destructuring [null] or [undefined] throws. *)
Definition destructure (req_body : value)
  : M (value * value * value * gmap string value) :=
  match req_body with
  | VUndefined | VNull =>
      throw (TypeError "Cannot destructure 'req.body' as it is undefined.")
  | _ =>
      model ← lift (get req_body f_model);
      messages ← lift (get req_body f_messages);
      max_completion_tokens ← lift (get req_body f_max_completion_tokens);
      let otherParams :=
        delete "max_completion_tokens"
          (delete "messages" (delete "model" (own_enumerable req_body))) in
      mret (model, messages, max_completion_tokens, otherParams)
  end.

(** [for (const message of messages) { if (!message.role ||
    !message.content) return res.status(400).json(...) }] *)
Fixpoint validate_messages (messages : list value) : M unit :=
  match messages with
  | [] => mret tt
  | message :: rest =>
      role ← lift (get message f_role);
      if negb (truthy role) then respond role_content_required else
      content ← lift (get message f_content);
      if negb (truthy content) then respond role_content_required else
      validate_messages rest
  end.

Definition default_model : string := "gpt-4o-mini".
Definition default_max_completion_tokens : float := 40%float.

(** [{ model: model || 'gpt-4o-mini', messages: messages,
       max_completion_tokens: max_completion_tokens || 40, ...otherParams }]:
    a property of [otherParams] replaces one written before the spread. *)
Definition openaiRequest (model messages max_completion_tokens : value)
    (otherParams : gmap string value) : gmap string value :=
  otherParams ∪
  list_to_map
    [("model", js_or model (VStr default_model));
     ("messages", messages);
     ("max_completion_tokens",
      js_or max_completion_tokens (VNum default_max_completion_tokens))].

(** The [try] block: it ends by answering or by throwing. *)
Definition try_block (create : upstream) (req_body : value) : M Empty_set :=
  log "Received chat completion request";;
  '(model, messages, max_completion_tokens, otherParams) ← destructure req_body;
  (if negb (truthy messages) || negb (isArray messages)
   then respond messages_required else mret tt);;
  validate_messages (elements messages);;
  let request := openaiRequest model messages max_completion_tokens otherParams in
  log ("Making OpenAI request with " +:+ pretty (length (elements messages))
         +:+ " messages");;
  completion ← await_create create request;
  log "OpenAI request successful";;
  respond (json 200 completion).

Definition server_error : response :=
  json 500 (error_envelope "Internal server error" "server_error").

(** The [catch] block, after its [console.error]. *)
Definition catch_block (error : js_error) : response :=
  if strict_eq_str (err_code error) "insufficient_quota" then
    json 429 (error_envelope_code (VStr "API quota exceeded")
                (VStr "insufficient_quota") (VStr "insufficient_quota"))
  else if strict_eq_str (err_code error) "rate_limit_exceeded" then
    json 429 (error_envelope_code
                (VStr "Rate limit exceeded, please try again later")
                (VStr "rate_limit_exceeded") (VStr "rate_limit_exceeded"))
  else
    match err_status error with
    | Some s =>
        if negb (Z.eqb s 0) then
          json s (error_envelope_code
                    (js_or (err_message error) (VStr "OpenAI API error"))
                    (js_or (err_type error) (VStr "api_error"))
                    (js_or (err_code error) (VStr "api_error")))
        else server_error
    | None => server_error
    end.

(** The handler: what it logs and calls, and what it answers. *)
Definition chat_completions (create : upstream) (req_body : value)
  : list event * response :=
  match try_block create req_body with
  | (t, Next impossible) => match impossible with end
  | (t, Responded r) => (t, r)
  | (t, Thrown e) => (t ++ [ConsoleError "OpenAI API Error:" e], catch_block e)
  end.

(** ** The other routes *)

(** [GET /health]; [iso] is [new Date().toISOString()]. *)
Definition health (iso : string) : response :=
  json 200 (obj [("status", VStr "OK");
                 ("timestamp", VStr iso);
                 ("service", VStr "Crystal Companions Backend")]).

(** [app.use('*', ...)]: the 404 handler. *)
Definition not_found : response :=
  json 404 (error_envelope "Endpoint not found" "not_found").

(** ** The rate limiter *)

(** The options [server.js] passes to [rateLimit]. *)
Record limiter_options : Type := mk_options {
  windowMs : Z;
  max : nat;
  message : value
}.

Record limiter_state : Type := mk_limiter {
  window_start : Z;
  hits : gmap string nat
}.

Definition limiter_init (now : Z) : limiter_state :=
  {| window_start := now; hits := ∅ |}.

Definition too_many_requests (opts : limiter_options) : response :=
  json 429 (message opts).

(** Modelled from the spec: [rateLimit] is the [express-rate-limit] package,
    of which [server.js] only holds the options. The limiter is the
    fixed-window counter of the specification: one counter per client
    identifier, all counters reset at each window boundary, and a request
    that takes its client's counter beyond [max] rejected with the
    configured message instead of being passed on. *)
Definition rateLimit (opts : limiter_options)
    (st : limiter_state) (now : Z) (client : string)
  : limiter_state * option response :=
  let st1 :=
    if decide (window_start st + windowMs opts ≤ now)%Z
    then {| window_start :=
              window_start st
              + windowMs opts * ((now - window_start st) / windowMs opts);
            hits := ∅ |}
    else st in
  let n := S (default 0%nat (hits st1 !! client)) in
  ({| window_start := window_start st1; hits := <[client := n]> (hits st1) |},
   if decide (max opts < n)%nat
   then Some (too_many_requests opts) else None).

(** [const limiter = rateLimit({ windowMs: 15 * 60 * 1000, max: 120,
    message: '...' })] *)
Definition limiter_config : limiter_options :=
  {| windowMs := 15 * 60 * 1000;
     max := 120;
     message := VStr "Too many requests from this IP, please try again later." |}.

Definition limiter : limiter_state → Z → string → limiter_state * option response :=
  rateLimit limiter_config.

(** ** The application

    A request is taken from the point where Express has let it through
    [helmet] and [cors] (it is not a CORS preflight) and the body parsers
    have accepted its body. Express decides which registered handler the
    request reaches; the model takes that decision as given. The limiter is
    mounted on [/api/], in front of the body parsers and of every route. *)

Inductive target : Type :=
  | Health
  | ChatCompletions
  | NoRoute (under_api : bool).

Definition rate_limited (t : target) : bool :=
  match t with
  | Health => false
  | ChatCompletions => true
  | NoRoute under_api => under_api
  end.

Record request : Type := mk_request {
  req_client : string;
  req_target : target;
  req_body : value;
  req_now : Z;
  req_iso : string
}.

Definition route (create : upstream) (req : request) : list event * response :=
  match req_target req with
  | Health => ([], health (req_iso req))
  | ChatCompletions => chat_completions create (req_body req)
  | NoRoute _ => ([], not_found)
  end.

Definition app (create : upstream) (st : limiter_state) (req : request)
  : limiter_state * (list event * response) :=
  if rate_limited (req_target req) then
    match limiter st (req_now req) (req_client req) with
    | (st', Some rejection) => (st', ([], rejection))
    | (st', None) => (st', route create req)
    end
  else (st, route create req).

(** The limiter state after a sequence of requests, each with the upstream
    behaviour it meets. *)
Definition serve (st : limiter_state) (arrivals : list (upstream * request))
  : limiter_state :=
  foldl (λ st a, fst (app (fst a) st (snd a))) st arrivals.

(** ** The stripped variant of the server

    The second [server.js]: [express.json] first, then the limiter, in
    front of every route; a greeting on [GET /] and a test route. It
    registers neither an error-handling middleware nor a 404 handler: an
    error of the body parser and a path with no route are left to Express's
    own final handler, whose answer is not part of [server.js]. As for the
    first server, a request is taken past [helmet] and [cors]. *)

Module Stripped.
Definition limiter_config : limiter_options :=
  {| windowMs := 15 * 60 * 1000;
     max := 100;
     message :=
       obj [("error", VStr "Too many requests, please try again later.")] |}.

Definition limiter : limiter_state → Z → string → limiter_state * option response :=
  rateLimit limiter_config.

Inductive target : Type :=
  | Root
  | ApiTest
  | NoRoute.

Inductive answer : Type :=
  | Sent (r : response)
  | ExpressError (err : js_error)
  | ExpressNotFound.

(** [req_failure] is the error [express.json] hands to [next], if any. *)
Record request : Type := mk_request {
  req_client : string;
  req_target : target;
  req_failure : option js_error;
  req_now : Z
}.

Definition route (req : request) : answer :=
  match req_target req with
  | Root => Sent (json 200 (obj [("message", VStr "API is running!")]))
  | ApiTest =>
      Sent (json 200 (obj [("message", VStr "Backend connected successfully!")]))
  | NoRoute => ExpressNotFound
  end.

(** [app.use(express.json(...))] comes before [app.use(limiter)]: a request
    whose body the parser rejects never reaches the limiter. *)
Definition app (st : limiter_state) (req : request) : limiter_state * answer :=
  match req_failure req with
  | Some err => (st, ExpressError err)
  | None =>
      match limiter st (req_now req) (req_client req) with
      | (st', Some rejection) => (st', Sent rejection)
      | (st', None) => (st', route req)
      end
  end.

Definition serve (st : limiter_state) (arrivals : list request) : limiter_state :=
  foldl (λ st req, fst (app st req)) st arrivals.

(** A request of [client] that reaches the limiter. *)
Definition counted_for (client : string) (req : request) : Prop :=
  req_failure req = None ∧ req_client req = client.

#[export] Instance counted_for_dec client req : Decision (counted_for client req).
Proof. unfold counted_for. apply _. Defined.
End Stripped.

(** ** Reading a response and a request body *)

(** [body.error.k] of an error envelope. *)
Definition error_field (b : value) (k : string) : option value :=
  match b with
  | VObj o => match o !! "error" with
              | Some (VObj e) => e !! k
              | _ => None
              end
  | _ => None
  end.

(** A message with a role and a content that are not empty. *)
Definition has_role_and_content (message : value) : Prop :=
  ∃ o role content,
    message = VObj o ∧
    o !! "role" = Some role ∧ truthy role = true ∧
    o !! "content" = Some content ∧ truthy content = true.

(** The request the handler forwards for a body with the properties
    [props] and the messages [messages]. *)
Definition forwarded (props : gmap string value) (messages : list value)
  : gmap string value :=
  openaiRequest (default VUndefined (props !! "model")) (VArr messages)
    (default VUndefined (props !! "max_completion_tokens"))
    (delete "max_completion_tokens" (delete "messages" (delete "model" props))).

(** The [messages] field of a body; a body that is not an object (a
    top-level array, say) has none. *)
Definition messages_field (req_body : value) : option value :=
  match req_body with
  | VObj props => props !! "messages"
  | _ => None
  end.

(** [body.k] of a JSON answer. *)
Definition body_field (b : value) (k : string) : option value :=
  match b with VObj o => o !! k | _ => None end.

(** The time [now] lies in the limiter's current window. *)
Definition in_window (opts : limiter_options) (st : limiter_state) (now : Z)
  : Prop :=
  window_start st ≤ now < window_start st + windowMs opts.

(** A request of [client] to a path behind the limiter. *)
Definition counted_for (client : string) (req : request) : Prop :=
  rate_limited (req_target req) = true ∧ req_client req = client.

#[export] Instance counted_for_dec client req : Decision (counted_for client req).
Proof. unfold counted_for. apply _. Defined.

(** ** Sample requests, answers and failures *)

Module Sample.
Definition message : value :=
  obj [("role", VStr "user"); ("content", VStr "hi")].

Definition props : gmap string value :=
  list_to_map [("messages", VArr [message]); ("temperature", VNum 0.5%float)].

Definition completion : value := obj [("id", VStr "chatcmpl-1")].

Definition succeeds : upstream := λ _, inl completion.

Definition unavailable : js_error :=
  {| err_code := VUndefined; err_status := Some 503;
     err_message := VStr "Service unavailable"; err_type := VUndefined |}.

Definition fails : upstream := λ _, inr unavailable.

Definition chat (client : string) (now : Z) : request :=
  {| req_client := client; req_target := ChatCompletions;
     req_body := VObj props; req_now := now;
     req_iso := "2024-01-01T00:00:00.000Z" |}.
End Sample.

(** ** The error-handling middleware and the body parsers *)

(** [app.use((err, req, res, next) => { console.error('Unhandled error:',
    err); res.status(500).json(...) })] *)
Definition error_middleware (err : js_error) : list event * response :=
  ([ConsoleError "Unhandled error:" err], server_error).

(** What follows the body parsers. [express.json] and [express.urlencoded]
    either accept the body or hand an error to [next] (malformed JSON, a
    payload over [10mb]); Express gives such an error to the error-handling
    middleware and skips the routes. *)
Definition after_parsers (create : upstream) (req : request)
    (failure : option js_error) : list event * response :=
  match failure with
  | Some err => error_middleware err
  | None => route create req
  end.

(** The application with the outcome of the body parsers made explicit;
    [failure = None] is [app]. *)
Definition app_parsing (create : upstream) (st : limiter_state) (req : request)
    (failure : option js_error) : limiter_state * (list event * response) :=
  if rate_limited (req_target req) then
    match limiter st (req_now req) (req_client req) with
    | (st', Some rejection) => (st', ([], rejection))
    | (st', None) => (st', after_parsers create req failure)
    end
  else (st, after_parsers create req failure).

(** ** More sample requests *)

Module Examples.
Definition complete : gmap string value :=
  list_to_map [("model", VStr "gpt-4o");
               ("messages", VArr [Sample.message]);
               ("max_completion_tokens", VNum 256%float);
               ("temperature", VNum 0.5%float)].

Definition no_content : value := obj [("role", VStr "user")].

Definition null_second : gmap string value :=
  list_to_map [("messages", VArr [Sample.message; VNull; no_content])].

Definition no_content_second : gmap string value :=
  list_to_map [("messages", VArr [Sample.message; no_content; VNull])].

Definition malformed_json : js_error :=
  {| err_code := VUndefined; err_status := Some 400;
     err_message := VStr "Unexpected end of JSON input";
     err_type := VStr "entity.parse.failed" |}.

Definition probe (now : Z) : request :=
  {| req_client := "203.0.113.7"; req_target := Health;
     req_body := obj []; req_now := now;
     req_iso := "2024-01-01T00:00:00.000Z" |}.

Definition stripped_test (now : Z) : Stripped.request :=
  {| Stripped.req_client := "203.0.113.7";
     Stripped.req_target := Stripped.ApiTest;
     Stripped.req_failure := None;
     Stripped.req_now := now |}.
End Examples.

(** * Properties *)

Section handler_facts.
Context (create : upstream).

Lemma validate_messages_pass (l : list value) :
  Forall has_role_and_content l → validate_messages l = ([], Next tt).
Proof.
  induction 1 as [|m l (o & r & c & -> & Hr & Tr & Hc & Tc) _ IH]; [done|].
  cbn. rewrite Hr, Hc. cbn. rewrite Tr, Tc. cbn. by rewrite IH.
Qed.

Lemma try_block_valid (props : gmap string value) (l : list value) :
  props !! "messages" = Some (VArr l) →
  Forall has_role_and_content l →
  try_block create (VObj props) =
    ([ConsoleLog "Received chat completion request";
      ConsoleLog ("Making OpenAI request with " +:+ pretty (length l)
                    +:+ " messages");
      UpstreamCreate (forwarded props l)] ++
     match create (forwarded props l) with
     | inl _ => [ConsoleLog "OpenAI request successful"]
     | inr _ => []
     end,
     match create (forwarded props l) with
     | inl completion => Responded (json 200 completion)
     | inr e => Thrown e
     end).
Proof.
  intros Hm Hl. unfold try_block, forwarded. cbn. rewrite Hm. cbn.
  rewrite (validate_messages_pass l Hl). cbn.
  by destruct (create _).
Qed.
End handler_facts.

Section valid_requests.
Context (create : upstream).

(** A body that passes validation: one call, and the answer is the
    completion or the translation of the failure. *)
Lemma chat_completions_valid (props : gmap string value) (l : list value) :
  props !! "messages" = Some (VArr l) →
  Forall has_role_and_content l →
  upstream_calls (chat_completions create (VObj props)).1 = [forwarded props l] ∧
  (chat_completions create (VObj props)).2 =
    match create (forwarded props l) with
    | inl completion => json 200 completion
    | inr e => catch_block e
    end.
Proof.
  intros Hm Hl. unfold chat_completions.
  rewrite (try_block_valid create props l Hm Hl).
  by destruct (create _).
Qed.

(** C1: a body whose [messages] is a non-empty array of messages that all
    have a non-empty role and a non-empty content makes the handler call
    the upstream API exactly once; when the call succeeds the answer is
    200 with the completion as it came. *)
Theorem one_upstream_call_and_passthrough
    (props : gmap string value) (l : list value) :
  props !! "messages" = Some (VArr l) →
  l ≠ [] →
  Forall has_role_and_content l →
  ∃ request,
    upstream_calls (chat_completions create (VObj props)).1 = [request] ∧
    ∀ completion,
      create request = inl completion →
      (chat_completions create (VObj props)).2 = json 200 completion.
Proof.
  intros Hm _ Hl.
  destruct (chat_completions_valid props l Hm Hl) as [Hcalls Hres].
  exists (forwarded props l). split; [done|].
  intros completion Hc. by rewrite Hres, Hc.
Qed.

(** C10: the empty array passes both validation checks, and the handler
    goes on to the upstream call: its answer is neither of the two
    validation errors. *)
Theorem empty_messages_reach_upstream (props : gmap string value) :
  props !! "messages" = Some (VArr []) →
  validate_messages [] = ([], Next tt) ∧
  (∃ request,
     upstream_calls (chat_completions create (VObj props)).1 = [request] ∧
     request !! "messages" = Some (VArr [])) ∧
  (chat_completions create (VObj props)).2 ≠ messages_required ∧
  (chat_completions create (VObj props)).2 ≠ role_content_required.
Proof.
  intros Hm.
  destruct (chat_completions_valid props [] Hm (Forall_nil_2 _)) as [Hcalls Hres].
  split; [done|]. split.
  - exists (forwarded props []). split; [done|].
    unfold forwarded, openaiRequest.
    rewrite lookup_union_r.
    + done.
    + rewrite lookup_delete_ne by done. apply lookup_delete_eq.
  - rewrite Hres.
    assert (∀ r, error_field (body r) "code" ≠ None ∨ status r ≠ 400 →
                 r ≠ messages_required ∧ r ≠ role_content_required) as Hne.
    { intros r [H|H]; split; intros ->; by apply H. }
    apply Hne. destruct (create _) as [c|e]; [by right|].
    unfold catch_block.
    repeat case_match; try (by right); by left.
Qed.
End valid_requests.

Section rejected_requests.
Context (create : upstream).

Lemma chat_completions_no_array (req_body : value) :
  req_body ≠ VUndefined → req_body ≠ VNull →
  (∀ l, messages_field req_body ≠ Some (VArr l)) →
  chat_completions create req_body =
    ([ConsoleLog "Received chat completion request"], messages_required).
Proof.
  intros Hu Hn Hm.
  destruct req_body as [| |b|n|s|l|props]; try done.
  cbn in Hm. unfold chat_completions, try_block. cbn.
  destruct (props !! "messages") as [m|] eqn:E; cbn; [|done].
  destruct m as [| |b|n|s|l|o]; cbn; try done.
  - by destruct b.
  - by destruct (number_truthy n).
  - by destruct (String.eqb s "").
  - by destruct (Hm l).
Qed.

(** C2: a body without [messages], or whose [messages] is not an array,
    is answered 400 with an envelope of type [invalid_request_error], and
    the upstream API is not called. *)
Theorem missing_messages_rejected (req_body : value) :
  req_body ≠ VUndefined → req_body ≠ VNull →
  (∀ l, messages_field req_body ≠ Some (VArr l)) →
  status (chat_completions create req_body).2 = 400 ∧
  error_field (body (chat_completions create req_body).2) "type"
    = Some (VStr "invalid_request_error") ∧
  upstream_calls (chat_completions create req_body).1 = [].
Proof.
  intros Hu Hn Hm. by rewrite (chat_completions_no_array req_body Hu Hn Hm).
Qed.
End rejected_requests.

Section message_validation.
Context (create : upstream).

(** The loop logs nothing and calls nothing, and it falls through only
    when every message has its role and its content. *)
Lemma validate_messages_inv (l : list value) :
  ∃ o, validate_messages l = ([], o) ∧
       (∀ u, o = Next u → Forall has_role_and_content l).
Proof.
  induction l as [|m l (o & IH & Hall)].
  { exists (Next tt). split; [done|]. intros _ _. constructor. }
  destruct m as [| |b|n|s|l'|props]; cbn;
    try (eexists; split; [reflexivity|]; by intros u).
  destruct (props !! "role") as [role|] eqn:Hr; cbn;
    [|eexists; split; [reflexivity|]; by intros u].
  destruct (truthy role) eqn:Tr; cbn;
    [|eexists; split; [reflexivity|]; by intros u].
  destruct (props !! "content") as [content|] eqn:Hc; cbn;
    [|eexists; split; [reflexivity|]; by intros u].
  destruct (truthy content) eqn:Tc; cbn;
    [|eexists; split; [reflexivity|]; by intros u].
  rewrite IH. cbn. exists o. split; [done|].
  intros u Hu. constructor; [|by eapply Hall].
  by exists props, role, content.
Qed.

(** A message that is not [null] and lacks a role or a content stops the
    loop with the 400 answer, provided no [null] comes before it. *)
Lemma validate_messages_reject (l : list value) :
  Forall (λ m, m ≠ VNull ∧ m ≠ VUndefined) l →
  ¬ Forall has_role_and_content l →
  validate_messages l = ([], Responded role_content_required).
Proof.
  induction 1 as [|m l [Hn Hu] _ IH]; intros Hnot.
  { destruct Hnot. constructor. }
  destruct m as [| |b|n|s|l'|props]; cbn; try done.
  destruct (props !! "role") as [role|] eqn:Hr; cbn; [|done].
  destruct (truthy role) eqn:Tr; cbn; [|done].
  destruct (props !! "content") as [content|] eqn:Hc; cbn; [|done].
  destruct (truthy content) eqn:Tc; cbn; [|done].
  rewrite IH; [done|]. intros Hl. apply Hnot. constructor; [|done].
  by exists props, role, content.
Qed.

(** C3, at the body [{"messages": [null]}]: reading [role] of [null]
    throws, the [catch] block answers 500 [server_error], and the upstream
    API is not called. *)
Theorem null_message_answered_500 :
  let req_body := obj [("messages", VArr [VNull])] in
  status (chat_completions create req_body).2 = 500 ∧
  error_field (body (chat_completions create req_body).2) "type"
    = Some (VStr "server_error") ∧
  upstream_calls (chat_completions create req_body).1 = [].
Proof. by vm_compute. Qed.
End message_validation.

Section forwarded_request.
Context (create : upstream).

(** Without a [null] among the messages, one message lacking a role or a
    content is enough for the 400 answer, and nothing is forwarded. *)
Lemma invalid_message_rejected (props : gmap string value) (l : list value) :
  props !! "messages" = Some (VArr l) →
  Forall (λ m, m ≠ VNull ∧ m ≠ VUndefined) l →
  ¬ Forall has_role_and_content l →
  chat_completions create (VObj props) =
    ([ConsoleLog "Received chat completion request"], role_content_required).
Proof.
  intros Hm Hnn Hnot. unfold chat_completions, try_block. cbn.
  rewrite Hm. cbn. by rewrite (validate_messages_reject l Hnn Hnot).
Qed.

(** Whatever the handler forwards is the request built from the body's
    properties, and the body passed validation. *)
Lemma upstream_calls_forwarded (req_body : value) (request : gmap string value) :
  request ∈ upstream_calls (chat_completions create req_body).1 →
  ∃ props l,
    req_body = VObj props ∧ props !! "messages" = Some (VArr l) ∧
    Forall has_role_and_content l ∧ request = forwarded props l.
Proof.
  intros Hin.
  assert (∀ b, b ≠ VUndefined → b ≠ VNull →
               (∀ l, messages_field b ≠ Some (VArr l)) →
               request ∉ upstream_calls (chat_completions create b).1) as Hno.
  { intros b Hu Hn Hm. rewrite chat_completions_no_array by done.
    apply not_elem_of_nil. }
  destruct req_body as [| |b|n|s|l|props];
    try (by vm_compute in Hin; apply elem_of_nil in Hin);
    try (by exfalso; eapply Hno; [| | |exact Hin]).
  destruct (props !! "messages") as [m|] eqn:Hm.
  2:{ exfalso. eapply Hno; [| | |exact Hin]; try done.
      intros l. cbn. by rewrite Hm. }
  destruct m as [| |b|n|s|l|o];
    try (exfalso; eapply Hno; [| | |exact Hin]; try done;
         intros l'; cbn; by rewrite Hm).
  exists props, l.
  destruct (validate_messages_inv l) as (o & Hv & Hall).
  destruct o as [[]|r|e].
  - specialize (Hall tt eq_refl).
    destruct (chat_completions_valid create props l Hm Hall) as [Hc _].
    rewrite Hc in Hin. apply list_elem_of_singleton in Hin. done.
  - exfalso. revert Hin. unfold chat_completions, try_block. cbn.
    rewrite Hm. cbn. rewrite Hv. cbn. apply not_elem_of_nil.
  - exfalso. revert Hin. unfold chat_completions, try_block. cbn.
    rewrite Hm. cbn. rewrite Hv. cbn. apply not_elem_of_nil.
Qed.
End forwarded_request.

Section request_fields.
Context (props : gmap string value) (l : list value).

Lemma forwarded_model :
  forwarded props l !! "model"
    = Some (js_or (default VUndefined (props !! "model")) (VStr default_model)).
Proof.
  unfold forwarded, openaiRequest. rewrite lookup_union_r; [done|].
  rewrite !lookup_delete_ne by done. apply lookup_delete_eq.
Qed.

Lemma forwarded_messages : forwarded props l !! "messages" = Some (VArr l).
Proof.
  unfold forwarded, openaiRequest. rewrite lookup_union_r; [done|].
  rewrite lookup_delete_ne by done. apply lookup_delete_eq.
Qed.

Lemma forwarded_max_completion_tokens :
  forwarded props l !! "max_completion_tokens"
    = Some (js_or (default VUndefined (props !! "max_completion_tokens"))
                  (VNum default_max_completion_tokens)).
Proof.
  unfold forwarded, openaiRequest. rewrite lookup_union_r; [done|].
  apply lookup_delete_eq.
Qed.

Lemma forwarded_other (k : string) :
  k ≠ "model" → k ≠ "messages" → k ≠ "max_completion_tokens" →
  forwarded props l !! k = props !! k.
Proof.
  intros H1 H2 H3. unfold forwarded, openaiRequest.
  rewrite lookup_union_l.
  - by rewrite !lookup_delete_ne.
  - cbn. by rewrite !lookup_insert_ne.
Qed.
End request_fields.

Section upstream_request.
Context (create : upstream).

(** C4, as the code has it: for a body that passes validation the
    forwarded request carries the caller's [model] when it is supplied and
    truthy and the default model otherwise, the caller's
    [max_completion_tokens] when it is supplied and truthy and 40
    otherwise, the caller's messages, and every other field of the body
    as it came. *)
Theorem forwarded_request_fields (props : gmap string value) (l : list value) :
  props !! "messages" = Some (VArr l) →
  Forall has_role_and_content l →
  ∃ request,
    upstream_calls (chat_completions create (VObj props)).1 = [request] ∧
    (∀ v, props !! "model" = Some v → truthy v = true →
          request !! "model" = Some v) ∧
    (props !! "model" = None ∨
     (∃ v, props !! "model" = Some v ∧ truthy v = false) →
     request !! "model" = Some (VStr default_model)) ∧
    (∀ v, props !! "max_completion_tokens" = Some v → truthy v = true →
          request !! "max_completion_tokens" = Some v) ∧
    (props !! "max_completion_tokens" = None ∨
     (∃ v, props !! "max_completion_tokens" = Some v ∧ truthy v = false) →
     request !! "max_completion_tokens"
       = Some (VNum default_max_completion_tokens)) ∧
    request !! "messages" = Some (VArr l) ∧
    (∀ k, k ≠ "model" → k ≠ "messages" → k ≠ "max_completion_tokens" →
          request !! k = props !! k).
Proof.
  intros Hm Hl.
  destruct (chat_completions_valid create props l Hm Hl) as [Hcalls _].
  exists (forwarded props l). split; [done|].
  rewrite forwarded_model, forwarded_max_completion_tokens, forwarded_messages.
  unfold js_or. repeat split.
  - intros v -> Hv. cbn. by rewrite Hv.
  - intros [->|(v & -> & Hv)]; cbn; [done|by rewrite Hv].
  - intros v -> Hv. cbn. by rewrite Hv.
  - intros [->|(v & -> & Hv)]; cbn; [done|by rewrite Hv].
  - apply forwarded_other.
Qed.

(** C9: in any request the handler forwards, [model], [messages] and
    [max_completion_tokens] are computed from the body's own [model],
    [messages] and [max_completion_tokens] and the two defaults; the
    other fields of the body have no part in them. *)
Theorem reserved_fields_from_body
    (req_body : value) (request : gmap string value) :
  request ∈ upstream_calls (chat_completions create req_body).1 →
  ∃ model messages max_completion_tokens,
    get req_body f_model = inl model ∧
    get req_body f_messages = inl messages ∧
    get req_body f_max_completion_tokens = inl max_completion_tokens ∧
    request !! "model" = Some (js_or model (VStr default_model)) ∧
    request !! "messages" = Some messages ∧
    request !! "max_completion_tokens"
      = Some (js_or max_completion_tokens
                    (VNum default_max_completion_tokens)).
Proof.
  intros Hin.
  destruct (upstream_calls_forwarded create req_body request Hin)
    as (props & l & -> & Hm & _ & ->).
  exists (default VUndefined (props !! "model")), (VArr l),
         (default VUndefined (props !! "max_completion_tokens")).
  cbn. rewrite Hm. cbn.
  by rewrite forwarded_model, forwarded_messages,
       forwarded_max_completion_tokens.
Qed.
End upstream_request.

(** C4 as it is written fails at
    [{"messages": [{"role": "user", "content": "hi"}],
      "max_completion_tokens": 0}]:
    the body passes validation and supplies 0, the request carries 40. *)
Lemma zero_max_completion_tokens_replaced :
  let message := obj [("role", VStr "user"); ("content", VStr "hi")] in
  let props : gmap string value :=
    list_to_map [("messages", VArr [message]);
                 ("max_completion_tokens", VNum 0%float)] in
  props !! "max_completion_tokens" = Some (VNum 0%float) ∧
  (λ request : gmap string value, request !! "max_completion_tokens")
    <$> upstream_calls (chat_completions (λ _, inl VNull) (VObj props)).1
    = [Some (VNum 40%float)] ∧
  VNum 40%float ≠ VNum 0%float.
Proof.
  vm_compute. repeat split.
  intros H.
  apply (f_equal (λ v, match v with VNum n => number_truthy n | _ => true end))
    in H.
  vm_compute in H. discriminate.
Qed.

Lemma strict_eq_str_true (v : value) (lit : string) :
  strict_eq_str v lit = true ↔ v = VStr lit.
Proof.
  destruct v; cbn; try (split; [discriminate|congruence]).
  rewrite String.eqb_eq. split; congruence.
Qed.

Lemma strict_eq_str_false (v : value) (lit : string) :
  v ≠ VStr lit → strict_eq_str v lit = false.
Proof.
  intros Hne. destruct (strict_eq_str v lit) eqn:E; [|done].
  by apply strict_eq_str_true in E.
Qed.

Section upstream_failures.
Context (create : upstream).

(** When the one upstream call fails, the answer is the [catch] block's
    translation of the error. *)
Lemma failure_reaches_catch
    (req_body : value) (request : gmap string value) (e : js_error) :
  request ∈ upstream_calls (chat_completions create req_body).1 →
  create request = inr e →
  (chat_completions create req_body).2 = catch_block e.
Proof.
  intros Hin He.
  destruct (upstream_calls_forwarded create req_body request Hin)
    as (props & l & -> & Hm & Hl & ->).
  destruct (chat_completions_valid create props l Hm Hl) as [_ ->].
  by rewrite He.
Qed.

(** C5: an upstream failure is classified in this order: the code
    [insufficient_quota] gives 429 of that type; else the code
    [rate_limit_exceeded] gives 429 of that type; else a status code gives
    that status with the error's message, type and code, or the fallbacks
    ["OpenAI API error"], [api_error] and [api_error] for those it lacks;
    else 500 [server_error] with the generic message. *)
Theorem upstream_failure_classified
    (req_body : value) (request : gmap string value) (e : js_error) :
  request ∈ upstream_calls (chat_completions create req_body).1 →
  create request = inr e →
  let r := (chat_completions create req_body).2 in
  (err_code e = VStr "insufficient_quota" →
     status r = 429 ∧
     error_field (body r) "type" = Some (VStr "insufficient_quota")) ∧
  (err_code e ≠ VStr "insufficient_quota" →
   err_code e = VStr "rate_limit_exceeded" →
     status r = 429 ∧
     error_field (body r) "type" = Some (VStr "rate_limit_exceeded")) ∧
  (err_code e ≠ VStr "insufficient_quota" →
   err_code e ≠ VStr "rate_limit_exceeded" →
   ∀ s, err_status e = Some s → s ≠ 0 →
     status r = s ∧
     error_field (body r) "message"
       = Some (js_or (err_message e) (VStr "OpenAI API error")) ∧
     error_field (body r) "type"
       = Some (js_or (err_type e) (VStr "api_error")) ∧
     error_field (body r) "code"
       = Some (js_or (err_code e) (VStr "api_error"))) ∧
  (err_code e ≠ VStr "insufficient_quota" →
   err_code e ≠ VStr "rate_limit_exceeded" →
   err_status e = None ∨ err_status e = Some 0 →
     status r = 500 ∧
     error_field (body r) "type" = Some (VStr "server_error") ∧
     error_field (body r) "message" = Some (VStr "Internal server error") ∧
     error_field (body r) "code" = None).
Proof.
  intros Hin He r. subst r.
  rewrite (failure_reaches_catch req_body request e Hin He).
  unfold catch_block. split; [|split; [|split]].
  - intros Hq. by rewrite (proj2 (strict_eq_str_true _ _) Hq).
  - intros Hq Hr.
    by rewrite (strict_eq_str_false _ _ Hq), (proj2 (strict_eq_str_true _ _) Hr).
  - intros Hq Hr s Hs Hz.
    rewrite (strict_eq_str_false _ _ Hq), (strict_eq_str_false _ _ Hr), Hs.
    by rewrite (proj2 (Z.eqb_neq s 0) Hz).
  - intros Hq Hr Hs.
    rewrite (strict_eq_str_false _ _ Hq), (strict_eq_str_false _ _ Hr).
    by destruct Hs as [-> | ->].
Qed.

(** C6, as the code has it: a failure whose code is neither
    [insufficient_quota] nor [rate_limit_exceeded] and that carries a
    status code [S] and a non-empty message [M] is answered with status
    [S] and an envelope whose message is [M]. *)
Theorem status_and_message_passed_through
    (req_body : value) (request : gmap string value) (e : js_error)
    (S : Z) (msg : string) :
  request ∈ upstream_calls (chat_completions create req_body).1 →
  create request = inr e →
  err_code e ≠ VStr "insufficient_quota" →
  err_code e ≠ VStr "rate_limit_exceeded" →
  err_status e = Some S → S ≠ 0 →
  err_message e = VStr msg → msg ≠ "" →
  status (chat_completions create req_body).2 = S ∧
  error_field (body (chat_completions create req_body).2) "message"
    = Some (VStr msg).
Proof.
  intros Hin He Hq Hr Hs Hz Hm Hne.
  rewrite (failure_reaches_catch req_body request e Hin He).
  unfold catch_block.
  rewrite (strict_eq_str_false _ _ Hq), (strict_eq_str_false _ _ Hr), Hs.
  rewrite (proj2 (Z.eqb_neq S 0) Hz), Hm. cbn.
  unfold js_or. cbn. by rewrite (proj2 (String.eqb_neq msg "") Hne).
Qed.
End upstream_failures.

(** C6 as it is written fails at an upstream failure with status 429, the
    code [insufficient_quota] and the upstream's own message: the answer
    carries the handler's fixed message. *)
Lemma quota_message_replaced :
  let message := obj [("role", VStr "user"); ("content", VStr "hi")] in
  let req_body := obj [("messages", VArr [message])] in
  let e := {| err_code := VStr "insufficient_quota";
              err_status := Some 429;
              err_message := VStr "You exceeded your current quota";
              err_type := VStr "insufficient_quota" |} in
  let create : upstream := λ _, inr e in
  length (upstream_calls (chat_completions create req_body).1) = 1%nat ∧
  error_field (body (chat_completions create req_body).2) "message"
    = Some (VStr "API quota exceeded") ∧
  VStr "API quota exceeded" ≠ err_message e.
Proof. by vm_compute. Qed.

(** C7, as the code has it: a [GET /health] request whose body the body
    parsers accept (a request without a body among them) is answered 200
    with [status] equal to ["OK"] and the service name, whatever the upstream
    provider would do and whatever the limiter has counted; nothing is
    forwarded and the limiter is not touched. *)
Theorem health_ok_when_body_accepted
    (create : upstream) (st : limiter_state)
    (client : string) (req_body : value) (now : Z) (iso : string)
    (failure : option js_error) :
  failure = None →
  let answer :=
    app_parsing create st (mk_request client Health req_body now iso) failure in
  status answer.2.2 = 200 ∧
  body_field (body answer.2.2) "status" = Some (VStr "OK") ∧
  body_field (body answer.2.2) "service"
    = Some (VStr "Crystal Companions Backend") ∧
  upstream_calls answer.2.1 = [] ∧
  answer.1 = st.
Proof. intros ->. done. Qed.

(** C7 as it is written fails at a [GET /health] request with a malformed
    JSON body: the body parsers come before the route, their error goes to
    the error-handling middleware, and the answer is 500 [server_error],
    without a [status] field. *)
Lemma health_malformed_body_500 :
  let req := Examples.probe 1000 in
  let answer :=
    app_parsing Sample.succeeds (limiter_init 0) req
      (Some Examples.malformed_json) in
  req_target req = Health ∧
  status answer.2.2 = 500 ∧
  body_field (body answer.2.2) "status" = None ∧
  error_field (body answer.2.2) "type" = Some (VStr "server_error").
Proof. by vm_compute. Qed.

Section rate_limit.
Context (client : string).

Lemma rateLimit_in_window
    (opts : limiter_options) (st : limiter_state) (now : Z) (c : string) :
  now < window_start st + windowMs opts →
  rateLimit opts st now c =
    ({| window_start := window_start st;
        hits := <[c := S (default 0%nat (hits st !! c))]> (hits st) |},
     if decide (max opts < S (default 0%nat (hits st !! c)))%nat
     then Some (too_many_requests opts) else None).
Proof. intros Hlt. unfold rateLimit. by rewrite decide_False by lia. Qed.

Lemma app_state (create : upstream) (st : limiter_state) (req : request) :
  (app create st req).1 =
    if rate_limited (req_target req)
    then (limiter st (req_now req) (req_client req)).1
    else st.
Proof.
  unfold app. destruct (rate_limited _); [|done].
  by destruct (limiter _ _ _) as [st' [r|]].
Qed.

Lemma app_counts (create : upstream) (st : limiter_state) (req : request) :
  in_window limiter_config st (req_now req) →
  window_start (app create st req).1 = window_start st ∧
  default 0%nat (hits (app create st req).1 !! client)
    = ((if decide (counted_for client req) then 1 else 0)
       + default 0%nat (hits st !! client))%nat.
Proof.
  intros [_ Hlt]. rewrite app_state.
  destruct (rate_limited (req_target req)) eqn:Hrl.
  - unfold limiter. rewrite rateLimit_in_window by done. cbn. split; [done|].
    case_decide as Hc.
    + destruct Hc as [_ ->]. by rewrite lookup_insert_eq.
    + rewrite lookup_insert_ne; [done|]. intros Heq. by apply Hc.
  - split; [done|]. rewrite decide_False; [done|].
    intros [Hc _]. congruence.
Qed.

Lemma serve_counts (st : limiter_state) (arrivals : list (upstream * request)) :
  Forall (λ a, in_window limiter_config st (req_now a.2)) arrivals →
  window_start (serve st arrivals) = window_start st ∧
  default 0%nat (hits (serve st arrivals) !! client)
    = (length (filter (λ a, counted_for client a.2) arrivals)
       + default 0%nat (hits st !! client))%nat.
Proof.
  revert st. induction arrivals as [|[create req] arrivals IH]; intros st Hall.
  { done. }
  apply Forall_cons in Hall as [Hreq Hall]. cbn in Hreq.
  destruct (app_counts create st req Hreq) as [Hw Hc].
  change (serve st ((create, req) :: arrivals))
    with (serve (app create st req).1 arrivals).
  destruct (IH (app create st req).1) as [Hw' Hc'].
  { eapply Forall_impl; [exact Hall|]. intros a. unfold in_window.
    by rewrite Hw. }
  split; [congruence|]. rewrite Hc', Hc, filter_cons. cbn.
  case_decide; cbn; lia.
Qed.

(** C8: within one window, once [max] requests of a client to paths behind
    the limiter have been served, the client's next request to such a path
    is answered by the limiter: no handler runs, nothing is logged or
    forwarded, and the body of the request plays no part. *)
Theorem request_beyond_cap_rejected
    (st : limiter_state) (arrivals : list (upstream * request))
    (create : upstream) (req : request) :
  Forall (λ a, in_window limiter_config st (req_now a.2)) arrivals →
  in_window limiter_config st (req_now req) →
  counted_for client req →
  (max limiter_config
     ≤ length (filter (λ a, counted_for client a.2) arrivals))%nat →
  (app create (serve st arrivals) req).2
    = ([], too_many_requests limiter_config).
Proof.
  intros Hall [_ Hlt] [Hrl Hcl] Hcap.
  destruct (serve_counts st arrivals Hall) as [Hw Hc].
  unfold app, limiter. rewrite Hrl, rateLimit_in_window by (by rewrite Hw).
  rewrite Hcl, decide_True; [done|]. lia.
Qed.

(** The same for the stripped variant, whose limiter covers every route but
    comes after the body parser. *)
Lemma stripped_counts (st : limiter_state) (arrivals : list Stripped.request) :
  Forall (λ a, in_window Stripped.limiter_config st (Stripped.req_now a))
    arrivals →
  window_start (Stripped.serve st arrivals) = window_start st ∧
  default 0%nat (hits (Stripped.serve st arrivals) !! client)
    = (length (filter (Stripped.counted_for client) arrivals)
       + default 0%nat (hits st !! client))%nat.
Proof.
  revert st. induction arrivals as [|req arrivals IH]; intros st Hall.
  { done. }
  apply Forall_cons in Hall as [[_ Hlt] Hall].
  change (Stripped.serve st (req :: arrivals))
    with (Stripped.serve (Stripped.app st req).1 arrivals).
  destruct (Stripped.req_failure req) as [err|] eqn:Hf.
  { assert ((Stripped.app st req).1 = st) as ->
      by (unfold Stripped.app; by rewrite Hf).
    rewrite filter_cons, decide_False by (intros [Hnone _]; congruence).
    by apply IH. }
  rewrite filter_cons.
  assert ((Stripped.app st req).1
          = {| window_start := window_start st;
               hits := <[Stripped.req_client req :=
                           S (default 0%nat (hits st !! Stripped.req_client req))]>
                         (hits st) |}) as ->.
  { unfold Stripped.app, Stripped.limiter. rewrite Hf.
    rewrite rateLimit_in_window by done. by case_decide. }
  destruct (IH {| window_start := window_start st;
                  hits := <[Stripped.req_client req :=
                              S (default 0%nat (hits st !! Stripped.req_client req))]>
                            (hits st) |}) as [Hw' Hc']; [done|].
  split; [done|]. rewrite Hc'. cbn.
  case_decide as Hc; cbn.
  - destruct Hc as [_ ->]. rewrite lookup_insert_eq. cbn. lia.
  - rewrite lookup_insert_ne; [done|]. intros Heq. by apply Hc.
Qed.

(** X13: in the stripped variant, within one window, once [max] (100)
    requests of a client have reached the limiter, the client's next request
    that reaches it is answered by the limiter with the configured message,
    on every route. A request whose body the parser rejects does not reach
    the limiter: it is not counted, and it is left to Express's error
    handling even beyond the cap. *)
Lemma stripped_request_beyond_cap_rejected
    (st : limiter_state) (arrivals : list Stripped.request)
    (req : Stripped.request) :
  Forall (λ a, in_window Stripped.limiter_config st (Stripped.req_now a))
    arrivals →
  in_window Stripped.limiter_config st (Stripped.req_now req) →
  Stripped.counted_for client req →
  (max Stripped.limiter_config
     ≤ length (filter (Stripped.counted_for client) arrivals))%nat →
  (Stripped.app (Stripped.serve st arrivals) req).2
    = Stripped.Sent (too_many_requests Stripped.limiter_config) ∧
  ∀ req' err,
    Stripped.req_failure req' = Some err →
    Stripped.app (Stripped.serve st arrivals) req'
      = (Stripped.serve st arrivals, Stripped.ExpressError err).
Proof.
  intros Hall [_ Hlt] [Hf Hcl] Hcap.
  destruct (stripped_counts st arrivals Hall) as [Hw Hc]. split.
  - unfold Stripped.app, Stripped.limiter. rewrite Hf.
    rewrite rateLimit_in_window by (by rewrite Hw).
    rewrite Hcl, decide_True; [done|]. lia.
  - intros req' err Hf'. unfold Stripped.app. by rewrite Hf'.
Qed.
End rate_limit.

(** * Further properties of the handler *)

Lemma js_or_truthy (a d : value) : truthy d = true → truthy (js_or a d) = true.
Proof. intros Hd. unfold js_or. by destruct (truthy a) eqn:Ha. Qed.

Lemma has_role_and_content_dec (m : value) :
  has_role_and_content m ∨ ¬ has_role_and_content m.
Proof.
  destruct m as [| |b|n|s|l|props];
    try (right; intros (o & r & c & Ho & _); discriminate).
  destruct (props !! "role") as [r|] eqn:Hr.
  2:{ right. intros (o & r & c & [= <-] & Hr' & _). congruence. }
  destruct (truthy r) eqn:Tr.
  2:{ right. intros (o & r' & c & [= <-] & Hr' & Tr' & _). congruence. }
  destruct (props !! "content") as [c|] eqn:Hc.
  2:{ right. intros (o & r' & c & [= <-] & _ & _ & Hc' & _). congruence. }
  destruct (truthy c) eqn:Tc.
  2:{ right. intros (o & r' & c' & [= <-] & _ & _ & Hc' & Tc'). congruence. }
  left. by exists props, r, c.
Qed.

Lemma validate_messages_app (l1 l2 : list value) :
  Forall has_role_and_content l1 →
  validate_messages (l1 ++ l2) = validate_messages l2.
Proof.
  induction 1 as [|m l (o & r & c & -> & Hr & Tr & Hc & Tc) _ IH]; [done|].
  cbn. rewrite Hr, Hc. cbn. rewrite Tr, Tc. cbn. rewrite IH.
  by destruct (validate_messages l2) as [t o'].
Qed.

Lemma validate_messages_null (l : list value) :
  validate_messages (VNull :: l) =
    ([], Thrown (TypeError "Cannot read properties of null (reading 'role')")).
Proof. reflexivity. Qed.

Lemma validate_messages_offending (m : value) (l : list value) :
  m ≠ VNull → m ≠ VUndefined → ¬ has_role_and_content m →
  validate_messages (m :: l) = ([], Responded role_content_required).
Proof.
  intros Hn Hu Hnot.
  destruct m as [| |b|n|s|l'|props]; cbn; try done.
  destruct (props !! "role") as [role|] eqn:Hr; cbn; [|done].
  destruct (truthy role) eqn:Tr; cbn; [|done].
  destruct (props !! "content") as [content|] eqn:Hc; cbn; [|done].
  destruct (truthy content) eqn:Tc; cbn; [|done].
  destruct Hnot. by exists props, role, content.
Qed.

Lemma first_offending (l : list value) :
  Forall has_role_and_content l ∨
  ∃ l1 m l2, l = l1 ++ m :: l2 ∧ Forall has_role_and_content l1 ∧
             ¬ has_role_and_content m.
Proof.
  induction l as [|m l IH]; [by left|].
  destruct (has_role_and_content_dec m) as [Hm|Hm].
  - destruct IH as [IH|(l1 & m' & l2 & -> & Hl1 & Hm')].
    + left. by constructor.
    + right. exists (m :: l1), m', l2. split; [done|]. split; [|done].
      by constructor.
  - right. by exists [], m, l.
Qed.

Section handler_shape.
Context (create : upstream).

Lemma chat_completions_stopped
    (props : gmap string value) (l : list value) (r : response) :
  props !! "messages" = Some (VArr l) →
  validate_messages l = ([], Responded r) →
  chat_completions create (VObj props) =
    ([ConsoleLog "Received chat completion request"], r).
Proof.
  intros Hm Hv. unfold chat_completions, try_block. cbn.
  rewrite Hm. cbn. by rewrite Hv.
Qed.

Lemma chat_completions_thrown
    (props : gmap string value) (l : list value) (e : js_error) :
  props !! "messages" = Some (VArr l) →
  validate_messages l = ([], Thrown e) →
  chat_completions create (VObj props) =
    ([ConsoleLog "Received chat completion request";
      ConsoleError "OpenAI API Error:" e], catch_block e).
Proof.
  intros Hm Hv. unfold chat_completions, try_block. cbn.
  rewrite Hm. cbn. by rewrite Hv.
Qed.

(** X4: The loop stops at the first message that lacks a role or a content: when
    that message is not [null], the answer is the 400 of the validation,
    whatever comes after it in the array, and nothing is forwarded. *)
Theorem first_offending_message_rejected
    (props : gmap string value) (l1 l2 : list value) (m : value) :
  props !! "messages" = Some (VArr (l1 ++ m :: l2)) →
  Forall has_role_and_content l1 →
  ¬ has_role_and_content m →
  m ≠ VNull → m ≠ VUndefined →
  chat_completions create (VObj props) =
    ([ConsoleLog "Received chat completion request"], role_content_required).
Proof.
  intros Hm Hl1 Hnot Hn Hu.
  apply (chat_completions_stopped props (l1 ++ m :: l2)); [done|].
  rewrite validate_messages_app by done.
  by apply validate_messages_offending.
Qed.

(** X5: A [null] message that comes after messages with a role and a content
    makes the loop throw: the error is logged under the label of upstream
    failures, the answer is 500 [server_error], and nothing is forwarded,
    whatever comes after the [null]. *)
Theorem null_message_after_valid_prefix
    (props : gmap string value) (l1 l2 : list value) :
  props !! "messages" = Some (VArr (l1 ++ VNull :: l2)) →
  Forall has_role_and_content l1 →
  chat_completions create (VObj props) =
    ([ConsoleLog "Received chat completion request";
      ConsoleError "OpenAI API Error:"
        (TypeError "Cannot read properties of null (reading 'role')")],
     server_error).
Proof.
  intros Hm Hl1.
  rewrite (chat_completions_thrown props (l1 ++ VNull :: l2)
             (TypeError "Cannot read properties of null (reading 'role')"));
    [done|done|].
  rewrite validate_messages_app by done. apply validate_messages_null.
Qed.

(** Every run of the handler either has a body that passes validation, or
    forwards nothing and answers one of three fixed responses. *)
Lemma chat_completions_cases (req_body : value) :
  (∃ props l, req_body = VObj props ∧ props !! "messages" = Some (VArr l) ∧
              Forall has_role_and_content l) ∨
  (upstream_calls (chat_completions create req_body).1 = [] ∧
   ((chat_completions create req_body).2 = messages_required ∨
    (chat_completions create req_body).2 = role_content_required ∨
    (chat_completions create req_body).2 = server_error)).
Proof.
  assert (∀ b, b ≠ VUndefined → b ≠ VNull →
               (∀ l, messages_field b ≠ Some (VArr l)) →
               upstream_calls (chat_completions create b).1 = [] ∧
               ((chat_completions create b).2 = messages_required ∨
                (chat_completions create b).2 = role_content_required ∨
                (chat_completions create b).2 = server_error)) as Hno.
  { intros b Hu Hn Hm. rewrite chat_completions_no_array by done.
    split; [done|by left]. }
  destruct req_body as [| |b|n|s|l|props];
    try (right; apply Hno; done);
    try (right; split; [done|by right; right]).
  destruct (props !! "messages") as [m|] eqn:Hm.
  2:{ right. apply Hno; try done. intros l. cbn. by rewrite Hm. }
  destruct m as [| |b|n|s|l|o];
    try (right; apply Hno; try done; intros l'; cbn; by rewrite Hm).
  destruct (first_offending l) as [Hl|(l1 & m & l2 & -> & Hl1 & Hnot)].
  { left. by exists props, l. }
  right.
  destruct (has_role_and_content_dec m) as [?|_]; [done|].
  destruct m as [| |b|n|s|l'|o].
  1:{ rewrite (chat_completions_thrown props (l1 ++ VUndefined :: l2)
                 (TypeError
                    "Cannot read properties of undefined (reading 'role')"));
        [by split; [|right; right] |done|].
      by rewrite validate_messages_app. }
  1:{ rewrite (chat_completions_thrown props (l1 ++ VNull :: l2)
                 (TypeError "Cannot read properties of null (reading 'role')"));
        [by split; [|right; right] |done|].
      by rewrite validate_messages_app. }
  all: rewrite (chat_completions_stopped props _ role_content_required Hm);
    [by split; [|right; left] |].
  all: rewrite validate_messages_app by done.
  all: by apply validate_messages_offending.
Qed.
End handler_shape.

Section handler_invariants.
Context (create : upstream).

(** X1: The handler never calls the upstream API twice: whatever the body and
    whatever the upstream does, a run holds at most one call. *)
Theorem at_most_one_upstream_call (req_body : value) :
  (length (upstream_calls (chat_completions create req_body).1) ≤ 1)%nat.
Proof.
  destruct (chat_completions_cases create req_body)
    as [(props & l & -> & Hm & Hl)|[-> _]]; [|cbn; lia].
  destruct (chat_completions_valid create props l Hm Hl) as [-> _]. done.
Qed.

(** X2: The upstream API is called exactly for the bodies that are objects whose
    [messages] is an array of messages that all have a role and a content
    (the empty array included). *)
Theorem upstream_called_iff_valid (req_body : value) :
  upstream_calls (chat_completions create req_body).1 ≠ [] ↔
  ∃ props l, req_body = VObj props ∧ props !! "messages" = Some (VArr l) ∧
             Forall has_role_and_content l.
Proof.
  split.
  - intros Hcalls.
    by destruct (chat_completions_cases create req_body) as [?|[? _]].
  - intros (props & l & -> & Hm & Hl).
    by destruct (chat_completions_valid create props l Hm Hl) as [-> _].
Qed.

(** X3: A run without an upstream call answers one of three fixed responses:
    the two 400 of the validation or the 500 [server_error]; in particular
    never 200. *)
Theorem answers_without_upstream_call (req_body : value) :
  upstream_calls (chat_completions create req_body).1 = [] →
  (chat_completions create req_body).2 = messages_required ∨
  (chat_completions create req_body).2 = role_content_required ∨
  (chat_completions create req_body).2 = server_error.
Proof.
  intros Hcalls.
  destruct (chat_completions_cases create req_body)
    as [(props & l & -> & Hm & Hl)|[_ ?]]; [|done].
  destruct (chat_completions_valid create props l Hm Hl) as [Hc _].
  by rewrite Hc in Hcalls.
Qed.

Lemma catch_block_envelope (e : js_error) :
  ∃ m t, error_field (body (catch_block e)) "message" = Some m ∧
         truthy m = true ∧
         error_field (body (catch_block e)) "type" = Some t ∧
         truthy t = true.
Proof.
  unfold catch_block.
  destruct (strict_eq_str (err_code e) "insufficient_quota");
    [by eexists _, _|].
  destruct (strict_eq_str (err_code e) "rate_limit_exceeded");
    [by eexists _, _|].
  destruct (err_status e) as [s|]; [|by eexists _, _].
  destruct (Z.eqb s 0); cbn; [by eexists _, _|].
  exists (js_or (err_message e) (VStr "OpenAI API error")),
         (js_or (err_type e) (VStr "api_error")).
  split; [done|]. split; [by apply js_or_truthy|].
  split; [done|]. by apply js_or_truthy.
Qed.

(** X6: Every answer of the handler is either the completion of a successful
    upstream call, sent with 200, or an error envelope whose [message] and
    [type] are present and not empty. *)
Theorem answer_is_completion_or_envelope (req_body : value) :
  let r := (chat_completions create req_body).2 in
  (∃ request completion,
     request ∈ upstream_calls (chat_completions create req_body).1 ∧
     create request = inl completion ∧ r = json 200 completion) ∨
  (∃ m t, error_field (body r) "message" = Some m ∧ truthy m = true ∧
          error_field (body r) "type" = Some t ∧ truthy t = true).
Proof.
  intros r. subst r.
  destruct (chat_completions_cases create req_body)
    as [(props & l & -> & Hm & Hl)|[_ [-> | [-> | ->]]]];
    try (right; by eexists _, _).
  destruct (chat_completions_valid create props l Hm Hl) as [Hc ->].
  destruct (create (forwarded props l)) as [completion|e] eqn:E.
  - left. exists (forwarded props l), completion.
    rewrite Hc. split; [by left|done].
  - right. apply catch_block_envelope.
Qed.
End handler_invariants.

Section forwarded_maps.
Context (create : upstream).

Lemma forwarded_complete (props : gmap string value) (l : list value)
    (model tokens : value) :
  props !! "messages" = Some (VArr l) →
  props !! "model" = Some model → truthy model = true →
  props !! "max_completion_tokens" = Some tokens → truthy tokens = true →
  forwarded props l = props.
Proof.
  intros Hm Hmodel Tmodel Htok Ttok. apply map_eq. intros k.
  destruct (decide (k = "model")) as [->|H1].
  { rewrite forwarded_model, Hmodel. cbn. unfold js_or. by rewrite Tmodel. }
  destruct (decide (k = "messages")) as [->|H2].
  { by rewrite forwarded_messages. }
  destruct (decide (k = "max_completion_tokens")) as [->|H3].
  { rewrite forwarded_max_completion_tokens, Htok. cbn. unfold js_or.
    by rewrite Ttok. }
  by apply forwarded_other.
Qed.

(** X7: A body that passes validation and supplies a [model] and a
    [max_completion_tokens] that are truthy is forwarded as it is: the
    request is the body, with nothing added, dropped or changed. *)
Theorem complete_body_forwarded_verbatim
    (props : gmap string value) (l : list value) (model tokens : value) :
  props !! "messages" = Some (VArr l) →
  Forall has_role_and_content l →
  props !! "model" = Some model → truthy model = true →
  props !! "max_completion_tokens" = Some tokens → truthy tokens = true →
  upstream_calls (chat_completions create (VObj props)).1 = [props].
Proof.
  intros Hm Hl Hmodel Tmodel Htok Ttok.
  destruct (chat_completions_valid create props l Hm Hl) as [-> _].
  by rewrite (forwarded_complete props l model tokens).
Qed.

Lemma forwarded_forwarded (props : gmap string value) (l : list value) :
  forwarded (forwarded props l) l = forwarded props l.
Proof.
  apply (forwarded_complete _ l
           (js_or (default VUndefined (props !! "model")) (VStr default_model))
           (js_or (default VUndefined (props !! "max_completion_tokens"))
                  (VNum default_max_completion_tokens))).
  - apply forwarded_messages.
  - apply forwarded_model.
  - by apply js_or_truthy.
  - apply forwarded_max_completion_tokens.
  - by apply js_or_truthy.
Qed.

(** X8: A request the handler has forwarded is a fixed point: sent to the
    handler as a body, it passes validation and is forwarded unchanged. *)
Theorem forwarded_request_is_fixed_point
    (create' : upstream) (req_body : value) (request : gmap string value) :
  request ∈ upstream_calls (chat_completions create req_body).1 →
  upstream_calls (chat_completions create' (VObj request)).1 = [request].
Proof.
  intros Hin.
  destruct (upstream_calls_forwarded create req_body request Hin)
    as (props & l & -> & Hm & Hl & ->).
  destruct (chat_completions_valid create' (forwarded props l) l
              (forwarded_messages props l) Hl) as [-> _].
  by rewrite forwarded_forwarded.
Qed.

(** X9: The fields of a forwarded request are the fields of the body, plus
    [model] and [max_completion_tokens]: the handler adds no other field and
    drops none. *)
Theorem forwarded_request_domain
    (props request : gmap string value) :
  request ∈ upstream_calls (chat_completions create (VObj props)).1 →
  dom request = dom props ∪ {["model"; "max_completion_tokens"]}.
Proof.
  intros Hin.
  destruct (upstream_calls_forwarded create (VObj props) request Hin)
    as (props' & l & [= <-] & Hm & _ & ->).
  apply set_eq. intros k.
  rewrite elem_of_union, !elem_of_dom, elem_of_union, !elem_of_singleton.
  destruct (decide (k = "model")) as [->|H1].
  { rewrite forwarded_model. split; [intros _; right; by left|by eexists]. }
  destruct (decide (k = "max_completion_tokens")) as [->|H3].
  { rewrite forwarded_max_completion_tokens.
    split; [intros _; right; by right|by eexists]. }
  destruct (decide (k = "messages")) as [->|H2].
  { rewrite forwarded_messages, Hm. split; [by left|by eexists]. }
  rewrite forwarded_other by done. split; [by left|].
  by intros [?|[?|?]].
Qed.
End forwarded_maps.

(** * Further properties of the application *)

Section application.
Context (create : upstream).

(** X10: Only [POST /api/chat/completions] reaches the upstream API, and only
    for a request the limiter lets through with a body that passes
    validation: the health route, the 404 handler and the limiter's
    rejection never call it. *)
Theorem upstream_only_from_chat_route
    (st : limiter_state) (req : request) (forwarded_request : gmap string value) :
  forwarded_request ∈ upstream_calls (app create st req).2.1 →
  req_target req = ChatCompletions ∧
  (limiter st (req_now req) (req_client req)).2 = None ∧
  ∃ props l,
    req_body req = VObj props ∧ props !! "messages" = Some (VArr l) ∧
    Forall has_role_and_content l ∧ forwarded_request = forwarded props l.
Proof.
  unfold app, route.
  destruct (limiter st (req_now req) (req_client req)) as [st' [r|]] eqn:Hlim;
    destruct (req_target req) as [| |[|]] eqn:Ht; cbn;
    try (intros Hin; by apply elem_of_nil in Hin).
  intros Hin. split; [done|]. split; [done|].
  destruct (upstream_calls_forwarded create _ _ Hin)
    as (props & l & ? & ? & ? & ?).
  by exists props, l.
Qed.



(** X14: A request whose body the parsers reject never reaches a route, the
    health route included: unless the limiter has rejected it first, it is
    answered 500 [server_error] by the error-handling middleware, whatever
    status the parser's error carries, and nothing is forwarded. *)
Theorem rejected_body_answered_500
    (st : limiter_state) (req : request) (err : js_error) :
  let answer := (app_parsing create st req (Some err)).2 in
  upstream_calls answer.1 = [] ∧
  (answer = error_middleware err ∨
   (rate_limited (req_target req) = true ∧
    answer = ([], too_many_requests limiter_config))) ∧
  (req_target req = Health → answer.2 = server_error).
Proof.
  unfold app_parsing, limiter, rateLimit.
  destruct (rate_limited (req_target req)) eqn:Hrl; cbn.
  - repeat case_decide; cbn; (split; [done|]); (split; [tauto|]);
      intros Ht; rewrite Ht in Hrl; discriminate.
  - split; [done|]. split; [by left|done].
Qed.

(** X15: A request to a path with no route forwards nothing. When the body
    parsers accept its body it is answered 404 [not_found]: always outside
    [/api/], and under [/api/] unless the limiter, which comes first,
    answers in its place. When they reject its body the 404 handler is not
    reached: the answer is the 500 of the error-handling middleware, or the
    limiter's under [/api/]. *)
Theorem unmatched_route_not_found
    (st : limiter_state) (req : request) (under_api : bool)
    (failure : option js_error) :
  req_target req = NoRoute under_api →
  let answer := (app_parsing create st req failure).2 in
  upstream_calls answer.1 = [] ∧
  (failure = None →
   (answer.2 = not_found ∨
    (under_api = true ∧ answer.2 = too_many_requests limiter_config)) ∧
   (under_api = false →
    answer.2 = not_found ∧
    status answer.2 = 404 ∧
    error_field (body answer.2) "type" = Some (VStr "not_found"))) ∧
  (∀ err, failure = Some err →
   answer.2 = server_error ∨
   (under_api = true ∧ answer.2 = too_many_requests limiter_config)).
Proof.
  intros Ht.
  unfold app_parsing, after_parsers, route, limiter, rateLimit. rewrite Ht.
  destruct failure as [e|], under_api; cbn; repeat case_decide; cbn;
    (split; [done|]); split; try (intros ?; discriminate);
    try (intros err _); try (intros _; split); tauto || done.
Qed.

(** With a body the parsers accept, the application with explicit parsers
    is [app]. *)
Lemma app_parsing_accepted (st : limiter_state) (req : request) :
  app_parsing create st req None = app create st req.
Proof. done. Qed.
End application.

(** * The theorems at concrete requests *)

Lemma sample_message_ok : has_role_and_content Sample.message.
Proof.
  exists (list_to_map [("role", VStr "user"); ("content", VStr "hi")]),
    (VStr "user"), (VStr "hi").
  by vm_compute.
Qed.

Lemma one_upstream_call_and_passthrough_witness :
  Sample.props !! "messages" = Some (VArr [Sample.message]) ∧
  [Sample.message] ≠ [] ∧
  Forall has_role_and_content [Sample.message] ∧
  ∃ request,
    upstream_calls
      (chat_completions Sample.succeeds (VObj Sample.props)).1 = [request] ∧
    ∀ completion,
      Sample.succeeds request = inl completion →
      (chat_completions Sample.succeeds (VObj Sample.props)).2
        = json 200 completion.
Proof.
  assert (Sample.props !! "messages" = Some (VArr [Sample.message])) as Hm
    by (vm_compute; reflexivity).
  assert ([Sample.message] ≠ []) as Hne by discriminate.
  assert (Forall has_role_and_content [Sample.message]) as Hl
    by (repeat constructor; apply sample_message_ok).
  repeat split; try assumption.
  exact (one_upstream_call_and_passthrough Sample.succeeds Sample.props
           [Sample.message] Hm Hne Hl).
Defined.

Lemma missing_messages_rejected_witness :
  let req_body := obj [("model", VStr "gpt-4o"); ("messages", VStr "hello")] in
  req_body ≠ VUndefined ∧ req_body ≠ VNull ∧
  (∀ l, messages_field req_body ≠ Some (VArr l)) ∧
  status (chat_completions Sample.succeeds req_body).2 = 400 ∧
  error_field (body (chat_completions Sample.succeeds req_body).2) "type"
    = Some (VStr "invalid_request_error") ∧
  upstream_calls (chat_completions Sample.succeeds req_body).1 = [].
Proof.
  intros req_body.
  assert (req_body ≠ VUndefined) as Hu by discriminate.
  assert (req_body ≠ VNull) as Hn by discriminate.
  assert (∀ l, messages_field req_body ≠ Some (VArr l)) as Hm
    by (intros l; vm_compute; discriminate).
  split; [exact Hu|]. split; [exact Hn|]. split; [exact Hm|].
  exact (missing_messages_rejected Sample.succeeds req_body Hu Hn Hm).
Defined.

Lemma forwarded_request_fields_witness :
  Sample.props !! "messages" = Some (VArr [Sample.message]) ∧
  Forall has_role_and_content [Sample.message] ∧
  ∃ request,
    upstream_calls
      (chat_completions Sample.succeeds (VObj Sample.props)).1 = [request] ∧
    request !! "model" = Some (VStr default_model) ∧
    request !! "max_completion_tokens"
      = Some (VNum default_max_completion_tokens) ∧
    request !! "messages" = Some (VArr [Sample.message]) ∧
    request !! "temperature" = Some (VNum 0.5%float).
Proof.
  assert (Sample.props !! "messages" = Some (VArr [Sample.message])) as Hm
    by (vm_compute; reflexivity).
  assert (Forall has_role_and_content [Sample.message]) as Hl
    by (repeat constructor; apply sample_message_ok).
  split; [exact Hm|]. split; [exact Hl|].
  destruct (forwarded_request_fields Sample.succeeds Sample.props
              [Sample.message] Hm Hl)
    as (request & Hcalls & _ & Hmodel & _ & Hmax & Hmsgs & Hother).
  exists request. split; [exact Hcalls|].
  split; [apply Hmodel; left; vm_compute; reflexivity|].
  split; [apply Hmax; left; vm_compute; reflexivity|].
  split; [exact Hmsgs|].
  rewrite Hother by discriminate. vm_compute. reflexivity.
Defined.

Lemma reserved_fields_from_body_witness :
  let request := forwarded Sample.props [Sample.message] in
  request ∈ upstream_calls
              (chat_completions Sample.succeeds (VObj Sample.props)).1 ∧
  ∃ model messages max_completion_tokens,
    get (VObj Sample.props) f_model = inl model ∧
    get (VObj Sample.props) f_messages = inl messages ∧
    get (VObj Sample.props) f_max_completion_tokens
      = inl max_completion_tokens ∧
    request !! "model" = Some (js_or model (VStr default_model)) ∧
    request !! "messages" = Some messages ∧
    request !! "max_completion_tokens"
      = Some (js_or max_completion_tokens
                    (VNum default_max_completion_tokens)).
Proof.
  intros request.
  assert (request ∈ upstream_calls
            (chat_completions Sample.succeeds (VObj Sample.props)).1) as Hin
    by (vm_compute; left).
  split; [exact Hin|].
  exact (reserved_fields_from_body Sample.succeeds (VObj Sample.props)
           request Hin).
Defined.

Lemma empty_messages_reach_upstream_witness :
  let props : gmap string value := list_to_map [("messages", VArr [])] in
  props !! "messages" = Some (VArr []) ∧
  (∃ request,
     upstream_calls (chat_completions Sample.succeeds (VObj props)).1
       = [request] ∧
     request !! "messages" = Some (VArr [])) ∧
  (chat_completions Sample.succeeds (VObj props)).2 ≠ messages_required.
Proof.
  intros props.
  assert (props !! "messages" = Some (VArr [])) as Hm
    by (vm_compute; reflexivity).
  split; [exact Hm|].
  destruct (empty_messages_reach_upstream Sample.succeeds props Hm)
    as (_ & Hcall & Hne & _).
  split; [exact Hcall | exact Hne].
Defined.

Lemma upstream_failure_classified_witness :
  let request := forwarded Sample.props [Sample.message] in
  let r := (chat_completions Sample.fails (VObj Sample.props)).2 in
  request ∈ upstream_calls
              (chat_completions Sample.fails (VObj Sample.props)).1 ∧
  Sample.fails request = inr Sample.unavailable ∧
  status r = 503 ∧
  error_field (body r) "message" = Some (VStr "Service unavailable") ∧
  error_field (body r) "type" = Some (VStr "api_error") ∧
  error_field (body r) "code" = Some (VStr "api_error").
Proof.
  intros request r.
  assert (request ∈ upstream_calls
            (chat_completions Sample.fails (VObj Sample.props)).1) as Hin
    by (vm_compute; left).
  assert (Sample.fails request = inr Sample.unavailable) as He by reflexivity.
  split; [exact Hin|]. split; [exact He|].
  destruct (upstream_failure_classified Sample.fails (VObj Sample.props)
              request Sample.unavailable Hin He) as (_ & _ & Hstatus & _).
  apply (Hstatus ltac:(discriminate) ltac:(discriminate) 503 eq_refl).
  discriminate.
Defined.

Lemma status_and_message_passed_through_witness :
  let request := forwarded Sample.props [Sample.message] in
  request ∈ upstream_calls
              (chat_completions Sample.fails (VObj Sample.props)).1 ∧
  Sample.fails request = inr Sample.unavailable ∧
  err_status Sample.unavailable = Some 503 ∧
  err_message Sample.unavailable = VStr "Service unavailable" ∧
  status (chat_completions Sample.fails (VObj Sample.props)).2 = 503 ∧
  error_field (body (chat_completions Sample.fails (VObj Sample.props)).2)
    "message" = Some (VStr "Service unavailable").
Proof.
  intros request.
  assert (request ∈ upstream_calls
            (chat_completions Sample.fails (VObj Sample.props)).1) as Hin
    by (vm_compute; left).
  split; [exact Hin|]. repeat (split; [reflexivity|]).
  apply (status_and_message_passed_through Sample.fails (VObj Sample.props)
           request Sample.unavailable 503 "Service unavailable" Hin);
    (reflexivity || discriminate).
Defined.

Lemma request_beyond_cap_rejected_witness :
  let st := limiter_init 0 in
  let arrivals :=
    replicate 120 (Sample.succeeds, Sample.chat "203.0.113.7" 1000) in
  let req :=
    {| req_client := "203.0.113.7"; req_target := ChatCompletions;
       req_body := VNull; req_now := 2000;
       req_iso := "2024-01-01T00:00:02.000Z" |} in
  Forall (λ a, in_window limiter_config st (req_now a.2)) arrivals ∧
  in_window limiter_config st (req_now req) ∧
  counted_for "203.0.113.7" req ∧
  (max limiter_config
     ≤ length (filter (λ a, counted_for "203.0.113.7" a.2) arrivals))%nat ∧
  (app Sample.succeeds (serve st arrivals) req).2
    = ([], too_many_requests limiter_config).
Proof.
  intros st arrivals req.
  assert (Forall (λ a, in_window limiter_config st (req_now a.2)) arrivals)
    as Hall.
  { apply Forall_replicate. unfold in_window. vm_compute. by split. }
  assert (in_window limiter_config st (req_now req)) as Hreq.
  { unfold in_window. vm_compute. by split. }
  assert (counted_for "203.0.113.7" req) as Hc by (split; reflexivity).
  assert (max limiter_config
            ≤ length (filter (λ a, counted_for "203.0.113.7" a.2) arrivals))%nat
    as Hcap by (vm_compute; reflexivity).
  split; [exact Hall|]. split; [exact Hreq|]. split; [exact Hc|].
  split; [exact Hcap|].
  exact (request_beyond_cap_rejected "203.0.113.7" st arrivals
           Sample.succeeds req Hall Hreq Hc Hcap).
Defined.

Lemma sample_no_content_invalid : ¬ has_role_and_content Examples.no_content.
Proof.
  intros (o & r & c & Ho & _ & _ & Hc & _).
  unfold Examples.no_content, obj in Ho. injection Ho as <-.
  vm_compute in Hc. discriminate.
Qed.

Lemma first_offending_message_rejected_witness :
  Examples.no_content_second !! "messages"
    = Some (VArr ([Sample.message] ++ Examples.no_content :: [VNull])) ∧
  chat_completions Sample.succeeds (VObj Examples.no_content_second) =
    ([ConsoleLog "Received chat completion request"], role_content_required).
Proof.
  assert (Examples.no_content_second !! "messages"
            = Some (VArr ([Sample.message] ++ Examples.no_content :: [VNull])))
    as Hm by (vm_compute; reflexivity).
  split; [exact Hm|].
  apply (first_offending_message_rejected Sample.succeeds
           Examples.no_content_second [Sample.message] [VNull]
           Examples.no_content Hm).
  - repeat constructor. apply sample_message_ok.
  - apply sample_no_content_invalid.
  - discriminate.
  - discriminate.
Defined.

Lemma null_message_after_valid_prefix_witness :
  Examples.null_second !! "messages"
    = Some (VArr ([Sample.message] ++ VNull :: [Examples.no_content])) ∧
  (chat_completions Sample.succeeds (VObj Examples.null_second)).2
    = server_error.
Proof.
  assert (Examples.null_second !! "messages"
            = Some (VArr ([Sample.message] ++ VNull :: [Examples.no_content])))
    as Hm by (vm_compute; reflexivity).
  split; [exact Hm|].
  rewrite (null_message_after_valid_prefix Sample.succeeds
             Examples.null_second [Sample.message] [Examples.no_content] Hm);
    [reflexivity|].
  repeat constructor. apply sample_message_ok.
Defined.

Lemma answers_without_upstream_call_witness :
  let req_body := obj [("model", VStr "gpt-4o")] in
  upstream_calls (chat_completions Sample.succeeds req_body).1 = [] ∧
  ((chat_completions Sample.succeeds req_body).2 = messages_required ∨
   (chat_completions Sample.succeeds req_body).2 = role_content_required ∨
   (chat_completions Sample.succeeds req_body).2 = server_error).
Proof.
  intros req_body.
  assert (upstream_calls (chat_completions Sample.succeeds req_body).1 = [])
    as Hc by (vm_compute; reflexivity).
  split; [exact Hc|].
  exact (answers_without_upstream_call Sample.succeeds req_body Hc).
Defined.

Lemma complete_body_forwarded_verbatim_witness :
  Examples.complete !! "messages" = Some (VArr [Sample.message]) ∧
  Examples.complete !! "model" = Some (VStr "gpt-4o") ∧
  Examples.complete !! "max_completion_tokens" = Some (VNum 256%float) ∧
  upstream_calls (chat_completions Sample.succeeds (VObj Examples.complete)).1
    = [Examples.complete].
Proof.
  assert (Examples.complete !! "messages" = Some (VArr [Sample.message]))
    as Hm by (vm_compute; reflexivity).
  assert (Examples.complete !! "model" = Some (VStr "gpt-4o"))
    as Hmodel by (vm_compute; reflexivity).
  assert (Examples.complete !! "max_completion_tokens"
            = Some (VNum 256%float)) as Htok by (vm_compute; reflexivity).
  split; [exact Hm|]. split; [exact Hmodel|]. split; [exact Htok|].
  apply (complete_body_forwarded_verbatim Sample.succeeds Examples.complete
           [Sample.message] (VStr "gpt-4o") (VNum 256%float) Hm).
  - repeat constructor. apply sample_message_ok.
  - exact Hmodel.
  - reflexivity.
  - exact Htok.
  - vm_compute. reflexivity.
Defined.

Lemma forwarded_request_is_fixed_point_witness :
  let request := forwarded Sample.props [Sample.message] in
  request ∈ upstream_calls
              (chat_completions Sample.succeeds (VObj Sample.props)).1 ∧
  upstream_calls (chat_completions Sample.fails (VObj request)).1 = [request].
Proof.
  intros request.
  assert (request ∈ upstream_calls
            (chat_completions Sample.succeeds (VObj Sample.props)).1) as Hin
    by (vm_compute; left).
  split; [exact Hin|].
  exact (forwarded_request_is_fixed_point Sample.succeeds Sample.fails
           (VObj Sample.props) request Hin).
Defined.

Lemma forwarded_request_domain_witness :
  let request := forwarded Sample.props [Sample.message] in
  request ∈ upstream_calls
              (chat_completions Sample.succeeds (VObj Sample.props)).1 ∧
  dom request = dom Sample.props ∪ {["model"; "max_completion_tokens"]}.
Proof.
  intros request.
  assert (request ∈ upstream_calls
            (chat_completions Sample.succeeds (VObj Sample.props)).1) as Hin
    by (vm_compute; left).
  split; [exact Hin|].
  exact (forwarded_request_domain Sample.succeeds Sample.props request Hin).
Defined.

Lemma upstream_only_from_chat_route_witness :
  let st := limiter_init 0 in
  let req := Sample.chat "203.0.113.7" 1000 in
  let request := forwarded Sample.props [Sample.message] in
  request ∈ upstream_calls (app Sample.succeeds st req).2.1 ∧
  req_target req = ChatCompletions ∧
  (limiter st (req_now req) (req_client req)).2 = None.
Proof.
  intros st req request.
  assert (request ∈ upstream_calls (app Sample.succeeds st req).2.1) as Hin
    by (vm_compute; left).
  split; [exact Hin|].
  destruct (upstream_only_from_chat_route Sample.succeeds st req request Hin)
    as (Ht & Hl & _).
  split; [exact Ht | exact Hl].
Defined.



Lemma rejected_body_answered_500_witness :
  let st := limiter_init 0 in
  let req := Examples.probe 1000 in
  req_target req = Health ∧
  (app_parsing Sample.succeeds st req (Some Examples.malformed_json)).2.2
    = server_error.
Proof.
  intros st req.
  assert (req_target req = Health) as Ht by reflexivity.
  split; [exact Ht|].
  destruct (rejected_body_answered_500 Sample.succeeds st req
              Examples.malformed_json) as (_ & _ & Hhealth).
  exact (Hhealth Ht).
Defined.

Lemma stripped_request_beyond_cap_rejected_witness :
  let st := limiter_init 0 in
  let arrivals := replicate 100 (Examples.stripped_test 1000) in
  let req := Examples.stripped_test 2000 in
  Forall (λ a, in_window Stripped.limiter_config st (Stripped.req_now a))
    arrivals ∧
  in_window Stripped.limiter_config st (Stripped.req_now req) ∧
  Stripped.counted_for "203.0.113.7" req ∧
  (max Stripped.limiter_config
     ≤ length (filter (Stripped.counted_for "203.0.113.7") arrivals))%nat ∧
  (Stripped.app (Stripped.serve st arrivals) req).2
    = Stripped.Sent (too_many_requests Stripped.limiter_config).
Proof.
  intros st arrivals req.
  assert (Forall (λ a, in_window Stripped.limiter_config st
                         (Stripped.req_now a)) arrivals) as Hall.
  { apply Forall_replicate. unfold in_window. vm_compute. by split. }
  assert (in_window Stripped.limiter_config st (Stripped.req_now req)) as Hreq.
  { unfold in_window. vm_compute. by split. }
  assert (Stripped.counted_for "203.0.113.7" req) as Hc by (split; reflexivity).
  assert (max Stripped.limiter_config
            ≤ length (filter (Stripped.counted_for "203.0.113.7")
                        arrivals))%nat as Hcap by (vm_compute; reflexivity).
  split; [exact Hall|]. split; [exact Hreq|]. split; [exact Hc|].
  split; [exact Hcap|].
  exact (proj1 (stripped_request_beyond_cap_rejected "203.0.113.7" st arrivals
                  req Hall Hreq Hc Hcap)).
Defined.

Lemma unmatched_route_not_found_witness :
  let req := {| req_client := "203.0.113.7"; req_target := NoRoute false;
                req_body := obj []; req_now := 1000;
                req_iso := "2024-01-01T00:00:01.000Z" |} in
  req_target req = NoRoute false ∧
  (app_parsing Sample.succeeds (limiter_init 0) req None).2.2 = not_found.
Proof.
  intros req.
  assert (req_target req = NoRoute false) as Ht by reflexivity.
  split; [exact Ht|].
  destruct (unmatched_route_not_found Sample.succeeds (limiter_init 0) req
              false None Ht) as (_ & Hok & _).
  destruct (Hok eq_refl) as (_ & Hout).
  destruct (Hout eq_refl) as (Hans & _). exact Hans.
Defined.

Lemma health_ok_when_body_accepted_witness :
  let answer :=
    app_parsing Sample.fails (limiter_init 0)
      (mk_request "203.0.113.7" Health (obj []) 1000
         "2024-01-01T00:00:01.000Z") None in
  (None : option js_error) = None ∧
  status answer.2.2 = 200 ∧
  body_field (body answer.2.2) "status" = Some (VStr "OK").
Proof.
  intros answer.
  assert ((None : option js_error) = None) as Hnone by reflexivity.
  split; [exact Hnone|].
  destruct (health_ok_when_body_accepted Sample.fails (limiter_init 0)
              "203.0.113.7" (obj []) 1000 "2024-01-01T00:00:01.000Z"
              None Hnone) as (Hstatus & Hok & _).
  split; [exact Hstatus | exact Hok].
Defined.
